(** * audio2mp4: the conversion driver of [audio2mp4.py]

    A shallow embedding of the script: the parts of [pathlib], [str] and
    [subprocess] it calls, its three module constants and its [main], followed
    by the properties of file discovery, presence validation, command
    construction and outcome reporting.

    Modelling conventions.
    - A Python [str] is a Rocq [string], non-ASCII text being kept as its
      UTF-8 bytes.  [Str.lower] changes the ASCII letters only; the script
      applies it to extensions, where it gives the same membership in the two
      allow-sets as [str.lower()].  The case-insensitive comparison of the
      Windows flavour follows [re.IGNORECASE] for the ASCII patterns of the
      script, the non-ASCII characters it takes for [i], [k] and [s]
      included.
    - The console and the external tool are observed through a trace of
      events ([Print], [Input], [Run]).  [main_on] is the script on any
      console; [main] is the script on an interactive one, where printing
      and reading a line do not fail.
    - What the environment decides (the script's directory, the order in
      which the directory is enumerated, what running the tool does) is a
      [world]. *)

From stdpp Require Import base decidable option list gmap strings.
From Stdlib Require Import ZArith Ascii String Lia.

Local Open Scope string_scope.
Local Open Scope list_scope.

(* String concatenation computes on its first argument. *)
Local Arguments String.append !_ _ / : simpl nomatch.

(** ** Python [str] *)

Module Str.

(** [c.lower()] on one ASCII character. *)
Definition lower_ascii (c : ascii) : ascii :=
  let n := nat_of_ascii c in
  if (65 <=? n)%nat && (n <=? 90)%nat then ascii_of_nat (n + 32) else c.

(** [s.lower()] on the ASCII letters of [s]; the other bytes are kept. *)
Fixpoint lower (s : string) : string :=
  match s with
  | EmptyString => EmptyString
  | String c s' => String (lower_ascii c) (lower s')
  end.

(** [s.rfind('.')], with [None] for Python's [-1]. *)
Fixpoint rfind_dot (s : string) : option nat :=
  match s with
  | EmptyString => None
  | String c s' =>
      match rfind_dot s' with
      | Some i => Some (S i)
      | None => if Ascii.eqb c "." then Some 0%nat else None
      end
  end.

(** [s[i:]] *)
Fixpoint drop (i : nat) (s : string) : string :=
  match i, s with
  | O, _ => s
  | S _, EmptyString => EmptyString
  | S i', String _ s' => drop i' s'
  end.

(** [s[:i]] *)
Fixpoint take (i : nat) (s : string) : string :=
  match i, s with
  | O, _ => EmptyString
  | S _, EmptyString => EmptyString
  | S i', String c s' => String c (take i' s')
  end.

(** [c * n] for a one-character string [c] *)
Fixpoint times (c : ascii) (n : nat) : string :=
  match n with
  | O => EmptyString
  | S n' => String c (times c n')
  end.

(** [sep.join(l)] *)
Fixpoint join (sep : string) (l : list string) : string :=
  match l with
  | [] => EmptyString
  | [x] => x
  | x :: l' => x +:+ sep +:+ join sep l'
  end.

(** The line feed written ["\n"] in the source. *)
Definition nl : string := String (ascii_of_nat 10) EmptyString.

(** [t in s] for strings, as a proposition: [t] occurs in [s]. *)
Definition occurs_in (t s : string) : Prop :=
  exists pre post, s = pre +:+ t +:+ post.

(** [s.endswith(t)] as a proposition. *)
Definition ends_with (s t : string) : Prop :=
  exists pre, s = pre +:+ t.

(** [s.startswith(t)] as a boolean. *)
Definition starts_with (s t : string) : bool := String.prefix t s.

End Str.

(** ** [fnmatch] *)

(** [s] without its prefix [t], when it begins with [t]. *)
Fixpoint strip_prefix (t s : string) : option string :=
  match t with
  | EmptyString => Some s
  | String a t' =>
      match s with
      | EmptyString => None
      | String b s' => if Ascii.eqb a b then strip_prefix t' s' else None
      end
  end.

(** [s] without the first of the prefixes [l] it begins with. *)
Fixpoint strip_any (l : list string) (s : string) : option string :=
  match l with
  | [] => None
  | t :: l' =>
      match strip_prefix t s with
      | Some r => Some r
      | None => strip_any l' s
      end
  end.

(** The characters outside ASCII that [re.IGNORECASE] lets an ASCII pattern
    character stand for, as their UTF-8 bytes: the dotted capital I (U+0130)
    and the dotless i (U+0131) for [i], the Kelvin sign (U+212A) for [k], the
    long s (U+017F) for [s]. *)
Definition folded_variants (p : ascii) : list string :=
  let q := Str.lower_ascii p in
  if Ascii.eqb q "i" then ["İ"; "ı"]
  else if Ascii.eqb q "k" then ["K"]
  else if Ascii.eqb q "s" then ["ſ"]
  else [].

(** One ASCII pattern character [p] against the beginning of a name: the rest
    of the name when its first character is matched.  [ci] is [true] when the
    comparison ignores case (the [re.IGNORECASE] flag of the Windows
    flavour). *)
Definition match_char (ci : bool) (p : ascii) (n : string) : option string :=
  match n with
  | EmptyString => None
  | String c n' =>
      if ci then
        if Ascii.eqb (Str.lower_ascii p) (Str.lower_ascii c) then Some n'
        else strip_any (folded_variants p) n
      else if Ascii.eqb p c then Some n' else None
  end.

(** The shell-style matching behind [Path.glob], for patterns made of literal
    ASCII characters and [*], which stands for any run of characters.  The
    match is a full match of the name. *)
Fixpoint fnmatch (ci : bool) (pat : string) (name : string) : bool :=
  match pat with
  | EmptyString =>
      match name with EmptyString => true | String _ _ => false end
  | String p pat' =>
      if Ascii.eqb p "*" then
        (fix star (s : string) : bool :=
           fnmatch ci pat' s ||
           match s with
           | EmptyString => false
           | String _ s' => star s'
           end) name
      else
        match match_char ci p name with
        | Some rest => fnmatch ci pat' rest
        | None => false
        end
  end.

(** ** [pathlib] *)

(** The two path flavours: [PosixPath] and [WindowsPath]. *)
Inductive flavour := Posix | Windows.

Definition sep (f : flavour) : string :=
  match f with Posix => "/" | Windows => "\" end.

(** Globbing is case-sensitive on POSIX and case-insensitive on Windows. *)
Definition case_insensitive (f : flavour) : bool :=
  match f with Posix => false | Windows => true end.

(** An absolute path: its flavour, its anchor (["/"], or a drive and root
    such as ["C:\"]) and the components below the anchor. *)
Record Path := mkPath {
  flav : flavour;
  anchor : string;
  parts : list string
}.

(** [str(p)] *)
Definition str (p : Path) : string :=
  anchor p +:+ Str.join (sep (flav p)) (parts p).

(** [p / name], for a one-component [name] *)
Definition truediv (p : Path) (name : string) : Path :=
  mkPath (flav p) (anchor p) (parts p ++ [name]).

(** [p.name]: the final component, empty for a bare anchor *)
Definition name (p : Path) : string := List.last (parts p) EmptyString.

(** [p.suffix]: the final component's last extension, with its dot.
<<
    i = name.rfind('.')
    if 0 < i < len(name) - 1: return name[i:]
    else: return ''
>>
    This is CPython's definition up to 3.13.  Later versions differ on names
    that begin with several dots or end in a dot; the former are matched by
    neither pattern of the script and the latter get the suffix ['.'], which
    is allowed no more than the empty one. *)
Definition suffix_of (n : string) : string :=
  match Str.rfind_dot n with
  | Some i =>
      if (0 <? i)%nat && (i <? String.length n - 1)%nat
      then Str.drop i n else EmptyString
  | None => EmptyString
  end.

Definition suffix (p : Path) : string := suffix_of (name p).

(** [p.stem]: the final component without its suffix. *)
Definition stem_of (n : string) : string :=
  match Str.rfind_dot n with
  | Some i =>
      if (0 <? i)%nat && (i <? String.length n - 1)%nat
      then Str.take i n else n
  | None => n
  end.

Definition stem (p : Path) : string := stem_of (name p).

(** [d.glob(pattern)] over a directory whose entries are enumerated as
    [entries]: the children whose name matches, in enumeration order. *)
Definition glob (d : Path) (entries : list string) (pattern : string)
  : list Path :=
  List.map (truediv d)
    (List.filter (fnmatch (case_insensitive (flav d)) pattern) entries).

(** ** Module constants *)

Definition OUTPUT_FILENAME : string := "movie.mp4".

Definition AUDIO_EXTS : gset string :=
  {[ ".mp3"; ".wav"; ".m4a"; ".flac"; ".aac"; ".ogg" ]}.

Definition IMAGE_EXTS : gset string :=
  {[ ".jpg"; ".jpeg"; ".png"; ".bmp"; ".gif" ]}.

(** ** Effects: console, external tool, exceptions *)

(** What a run does that can be observed from outside, in order. *)
Inductive event :=
| Print (line : string)          (* [print(line)] *)
| Input (prompt : string)        (* [input(prompt)]: blocks for a line *)
| Run (cmd : list string).       (* [subprocess.run(cmd, check=True)] *)

(** The exceptions of class [Exception] that the script can meet.  An
    interrupt from the keyboard is not of that class and is not modelled. *)
Inductive exn :=
| CalledProcessError (returncode : Z) (cmd : list string)
| OtherException (description : string).   (* [str(e)] of any other one *)

(** How a computation ends. *)
Inductive outcome (A : Type) :=
| Return (a : A)
| Raise (e : exn).
Arguments Return {A} a.
Arguments Raise {A} e.

(** A computation: the events it caused, and how it ended. *)
Definition M (A : Type) : Type := list event * outcome A.

Definition ret {A} (a : A) : M A := ([], Return a).

Definition raise {A} (e : exn) : M A := ([], Raise e).

Definition bind {A B} (m : M A) (k : A -> M B) : M B :=
  match m with
  | (t, Return a) => let (t', o) := k a in (t ++ t', o)
  | (t, Raise e) => (t, Raise e)
  end.

(** [try: m  except ... : h e] *)
Definition try_except {A} (m : M A) (h : exn -> M A) : M A :=
  match m with
  | (t, Return a) => (t, Return a)
  | (t, Raise e) => let (t', o) := h e in (t ++ t', o)
  end.

Notation "x <- m ;; k" := (bind m (fun x => k))
  (at level 100, m at next level, right associativity).
Notation "m ;; k" := (bind m (fun _ => k))
  (at level 100, right associativity).

(** The console a run is attached to. *)
Record console := mkConsole {
  encodes : string -> bool;         (* can standard output encode this text *)
  encode_error : string -> string;  (* [str(e)] of the error when it cannot *)
  stdin : option string             (* the line standard input supplies at
                                       the prompt, [None] at end-of-file *)
}.

(** [print(line)]: the line is shown, or [UnicodeEncodeError] is raised when
    standard output cannot encode it. *)
Definition print_on (k : console) (line : string) : M unit :=
  if encodes k line then ([Print line], Return tt)
  else raise (OtherException (encode_error k line)).

(** [input(prompt)]: the prompt is shown and a line is read, which the
    script does not use; [EOFError] is raised when there is none.  The script
    reads at most once in a run. *)
Definition input_on (k : console) (prompt : string) : M unit :=
  if encodes k prompt then
    ([Input prompt],
     match stdin k with
     | Some _ => Return tt
     | None => Raise (OtherException "EOF when reading a line")
     end)
  else raise (OtherException (encode_error k prompt)).

(** An interactive console: it shows every line and the user answers the
    prompt. *)
Definition interactive : console :=
  mkConsole (fun _ => true) (fun _ => EmptyString) (Some EmptyString).

(** [for x in l: body x] *)
Fixpoint for_each {A} (l : list A) (body : A -> M unit) : M unit :=
  match l with
  | [] => ret tt
  | x :: l' => body x ;; for_each l' body
  end.

Definition trace {A} (m : M A) : list event := fst m.
Definition result {A} (m : M A) : outcome A := snd m.

(** The status the interpreter exits with once [main()] has ended: 0 when it
    returned, 1 when an exception reached the top level. *)
Definition exit_status {A} (m : M A) : Z :=
  match result m with
  | Return _ => 0%Z
  | Raise _ => 1%Z
  end.

(** ** The environment of a run *)

(** What [subprocess.run] meets: the tool ran and exited with a status, or
    the call itself failed with an exception (executable not found,
    permission denied, ...) described by [str(e)]. *)
Inductive tool_result :=
| Exited (status : Z)
| Failed (description : string).

Record world := mkWorld {
  script_dir : Path;                   (* [Path(__file__).resolve().parent] *)
  entries : list string;               (* its entries, as enumerated *)
  tool : list string -> tool_result    (* what running a command does *)
}.

(** [subprocess.run(cmd, check=True)] *)
Definition subprocess_run (w : world) (cmd : list string) : M unit :=
  ([Run cmd],
   match tool w cmd with
   | Exited status =>
       if (status =? 0)%Z then Return tt
       else Raise (CalledProcessError status cmd)
   | Failed description => Raise (OtherException description)
   end).

(** ** Optional paths *)

(** [next(iter(l), None)] *)
Definition next {A} (l : list A) : option A := List.head l.

(** [not p] for [p] a [Path] or [None]: a [Path] is always true. *)
Definition not_ (p : option Path) : bool :=
  match p with Some _ => false | None => true end.

(** [p.name] for [p] a [Path] or [None]. *)
Definition name_attr (p : option Path) : M string :=
  match p with
  | Some q => ret (name q)
  | None => raise (OtherException
                     "'NoneType' object has no attribute 'name'")
  end.

(** [str(p)] for [p] a [Path] or [None]. *)
Definition str_opt (p : option Path) : string :=
  match p with Some q => str q | None => "None" end.

(** ** The script *)

Definition audio_label : string := "音声ファイル (audio.mp3, audio.wav 等)".
Definition image_label : string := "画像ファイル (cover.jpg, cover.png 等)".
Definition missing_header : string := "❌ 必要なファイルが見つかりません:".
Definition exit_prompt : string := Str.nl +:+ "エンターキーを押して終了...".
Definition success_banner (output_name : string) : string :=
  "✅ 変換成功！: " +:+ output_name.
Definition tool_failure_line : string :=
  Str.nl +:+ "❌ FFmpegのエラーが発生しました。".
Definition unexpected_line (e : string) : string :=
  Str.nl +:+ "❌ 予期せぬエラー: " +:+ e.

(** [p.suffix.lower() in exts] *)
Definition allowed (exts : gset string) (p : Path) : bool :=
  bool_decide (Str.lower (suffix p) ∈ exts).

(** Step 1 of [main]. *)
Definition audio_path (w : world) : option Path :=
  next (List.filter (allowed AUDIO_EXTS)
          (glob (script_dir w) (entries w) "audio.*")).

(** Step 2 of [main]. *)
Definition image_path (w : world) : option Path :=
  next (List.filter (allowed IMAGE_EXTS)
          (glob (script_dir w) (entries w) "cover.*")).

(** Step 3 of [main]: the list [missing]. *)
Definition missing (audio_path image_path : option Path) : list string :=
  let missing := [] in
  let missing := if not_ audio_path then missing ++ [audio_label]
                 else missing in
  let missing := if not_ image_path then missing ++ [image_label]
                 else missing in
  missing.

(** Step 4 of [main]: the list [cmd]. *)
Definition cmd (image_path audio_path : string) (output_path : string)
  : list string :=
  [ "ffmpeg";
    "-y";
    "-loop"; "1";
    "-i"; image_path;
    "-i"; audio_path;
    "-c:v"; "libx264";
    "-tune"; "stillimage";
    "-c:a"; "aac";
    "-b:a"; "192k";
    "-pix_fmt"; "yuv420p";
    "-vf"; "pad=ceil(iw/2)*2:ceil(ih/2)*2";
    "-shortest";
    output_path ].

Definition output_path (w : world) : Path :=
  truediv (script_dir w) OUTPUT_FILENAME.

(** [main()] on the console [k]. *)
Definition main_on (k : console) (w : world) : M unit :=
  let base_dir := script_dir w in
  print_on k ("📂 作業ディレクトリ: " +:+ str base_dir) ;;
  print_on k (Str.times "-" 40) ;;
  let audio_path := audio_path w in
  let image_path := image_path w in
  let missing := missing audio_path image_path in
  match missing with
  | _ :: _ =>
      print_on k missing_header ;;
      for_each missing (fun m => print_on k ("   - " +:+ m)) ;;
      input_on k exit_prompt ;;
      ret tt
  | [] =>
      let output_path := output_path w in
      audio_name <- name_attr audio_path ;;
      print_on k ("🎵 発見: " +:+ audio_name) ;;
      image_name <- name_attr image_path ;;
      print_on k ("🖼️  発見: " +:+ image_name) ;;
      print_on k ("🎥 作成: " +:+ OUTPUT_FILENAME) ;;
      print_on k (Str.times "-" 40) ;;
      let cmd := cmd (str_opt image_path) (str_opt audio_path)
                   (str output_path) in
      try_except
        (subprocess_run w cmd ;;
         print_on k (Str.nl +:+ Str.times "=" 40) ;;
         print_on k (success_banner (name output_path)) ;;
         print_on k (Str.times "=" 40))
        (fun e =>
           match e with
           | CalledProcessError _ _ => print_on k tool_failure_line
           | OtherException description =>
               print_on k (unexpected_line description)
           end) ;;
      input_on k exit_prompt
  end.

(** [main()] on an interactive console. *)
Definition main (w : world) : M unit := main_on interactive w.

(** ** Vocabulary of the properties *)

(** [lit] holds no [*]. *)
Fixpoint literal (lit : string) : bool :=
  match lit with
  | EmptyString => true
  | String p lit' => negb (Ascii.eqb p "*") && literal lit'
  end.

(** [s] is [lit] as the flavour's glob compares names: letter for letter on
    POSIX; on Windows without regard to the case of letters, the dotted
    capital I and the dotless i counting as [i]. *)
Definition glob_equal (f : flavour) (lit s : string) : bool :=
  fnmatch (case_insensitive f) lit s.

(** A directory entry qualifies for a category: its name is matched by the
    category's pattern and its final extension, lower-cased, is allowed. *)
Definition candidate (f : flavour) (pattern : string) (exts : gset string)
    (n : string) : bool :=
  fnmatch (case_insensitive f) pattern n
  && bool_decide (Str.lower (suffix_of n) ∈ exts).

(** The two discovery steps of [main] share this shape. *)
Definition find_candidate (d : Path) (es : list string) (pattern : string)
    (exts : gset string) : option Path :=
  next (List.filter (allowed exts) (glob d es pattern)).

(** The lines printed before the directory is searched. *)
Definition prologue (w : world) : list event :=
  [ Print ("📂 作業ディレクトリ: " +:+ str (script_dir w));
    Print (Str.times "-" 40) ].

(** What a run prints once the call of the tool has ended with [r]. *)
Definition report (r : tool_result) : list event :=
  match r with
  | Exited status =>
      if (status =? 0)%Z then
        [ Print (Str.nl +:+ Str.times "=" 40);
          Print (success_banner OUTPUT_FILENAME);
          Print (Str.times "=" 40) ]
      else [ Print tool_failure_line ]
  | Failed description => [ Print (unexpected_line description) ]
  end.

(** The command built in world [w] from the audio path [a] and the image
    path [i]. *)
Definition command (w : world) (a i : Path) : list string :=
  cmd (str i) (str a) (str (output_path w)).

(** [n] is the one entry of the directory that qualifies for a category. *)
Definition sole_candidate (w : world) (pattern : string)
    (exts : gset string) (n : string) : Prop :=
  In n (entries w)
  /\ candidate (flav (script_dir w)) pattern exts n = true
  /\ forall m, In m (entries w) ->
               candidate (flav (script_dir w)) pattern exts m = true -> m = n.

(** No entry of the directory qualifies for a category. *)
Definition no_candidate (w : world) (pattern : string)
    (exts : gset string) : Prop :=
  forall n, In n (entries w) ->
            candidate (flav (script_dir w)) pattern exts n = false.

(** The lines that report a failure: the two diagnostics of the call of the
    tool and the header of the missing-file diagnostic. *)
Definition failure_diagnostic (line : string) : Prop :=
  line = tool_failure_line
  \/ (exists description, line = unexpected_line description)
  \/ line = missing_header.

(** The filter that pads both dimensions up to an even number. *)
Definition pad_filter : string := "pad=ceil(iw/2)*2:ceil(ih/2)*2".

(** The inputs of a command, in order: the values of its [-i] options. *)
Fixpoint inputs (c : list string) : list string :=
  match c with
  | [] => []
  | o :: t =>
      match t with
      | [] => []
      | v :: c' => if String.eqb o "-i" then v :: inputs c' else inputs t
      end
  end.

(** The commands of the [Run] events of a trace, in order. *)
Fixpoint runs (t : list event) : list (list string) :=
  match t with
  | [] => []
  | Run c :: t' => c :: runs t'
  | _ :: t' => runs t'
  end.

(** The prompts of the [Input] events of a trace, in order. *)
Fixpoint prompts (t : list event) : list string :=
  match t with
  | [] => []
  | Input prompt :: t' => prompt :: prompts t'
  | _ :: t' => prompts t'
  end.

(** ** Sample runs *)

Definition sample_dir : Path := mkPath Posix "/" ["home"; "user"; "conv"].

Definition sample_world (names : list string) (r : tool_result) : world :=
  mkWorld sample_dir names (fun _ => r).

(** A directory with one qualifying file per category among others. *)
Definition mixed_world : world :=
  sample_world ["audio.txt"; "cover.png"; "audio.MP3"; "cover.doc"]
    (Exited 0).

(** A directory whose only [audio.*] entry has a disallowed extension. *)
Definition xyz_world : world :=
  sample_world ["audio.xyz"; "cover.jpg"] (Exited 0).

(** An empty directory. *)
Definition empty_world : world := sample_world [] (Exited 0).

(** The sample directory with both files, and a tool that succeeds. *)
Definition success_world : world :=
  sample_world ["audio.mp3"; "cover.png"] (Exited 0).

(** The same directory, and a tool that exits with status 1. *)
Definition failure_world : world :=
  sample_world ["audio.mp3"; "cover.png"] (Exited 1).

Definition sample_command : list string :=
  cmd "/home/user/conv/cover.png" "/home/user/conv/audio.mp3"
      "/home/user/conv/movie.mp4".

(** The sample directory with both files, and no tool to be found. *)
Definition fault_world : world :=
  sample_world ["audio.mp3"; "cover.png"]
    (Failed "[Errno 2] No such file or directory: 'ffmpeg'").

(** A directory whose audio and image files carry a second extension. *)
Definition dotted_world : world :=
  sample_world ["audio.x.mp3"; "cover.x.png"] (Exited 0).

(** Two audio files and a cover, enumerated in two orders. *)
Definition wav_first_world : world :=
  sample_world ["notes.txt"; "audio.wav"; "audio.mp3"; "cover.png"] (Exited 0).

Definition mp3_first_world : world :=
  sample_world ["notes.txt"; "audio.mp3"; "audio.wav"; "cover.png"] (Exited 0).

(** The sample directory with both files, and a tool killed by a signal. *)
Definition killed_world : world :=
  sample_world ["audio.mp3"; "cover.png"] (Exited (-9)).

(** A console with standard input at end-of-file, as under a scheduler or
    with input redirected from an empty file. *)
Definition eof_console : console :=
  mkConsole (fun _ => true) (fun _ => EmptyString) None.

(** A console whose standard output encodes ASCII only. *)
Definition ascii_console : console :=
  mkConsole
    (fun line =>
       forallb (fun c => (nat_of_ascii c <? 128)%nat)
         (list_ascii_of_string line))
    (fun _ => "'ascii' codec can't encode characters")
    (Some EmptyString).

(** * Properties *)

(** Goes through a hypothesis [H : In e l] for an explicit [l], dropping the
    elements that cannot be [e]. *)
Ltac sift H :=
  repeat (destruct H as [H|H]; [try discriminate H|]);
  try (now destruct H).

(** ** Sample runs *)

Example run_success :
  main success_world =
  ([ Print "📂 作業ディレクトリ: /home/user/conv";
     Print "----------------------------------------";
     Print "🎵 発見: audio.mp3";
     Print "🖼️  発見: cover.png";
     Print "🎥 作成: movie.mp4";
     Print "----------------------------------------";
     Run sample_command;
     Print (Str.nl +:+ "========================================");
     Print "✅ 変換成功！: movie.mp4";
     Print "========================================";
     Input exit_prompt ],
   Return tt).
Proof. vm_compute. reflexivity. Qed.

Example run_tool_failure :
  main failure_world =
  ([ Print "📂 作業ディレクトリ: /home/user/conv";
     Print "----------------------------------------";
     Print "🎵 発見: audio.mp3";
     Print "🖼️  発見: cover.png";
     Print "🎥 作成: movie.mp4";
     Print "----------------------------------------";
     Run sample_command;
     Print tool_failure_line;
     Input exit_prompt ],
   Return tt).
Proof. vm_compute. reflexivity. Qed.

Example run_missing_audio :
  main xyz_world =
  ([ Print "📂 作業ディレクトリ: /home/user/conv";
     Print "----------------------------------------";
     Print "❌ 必要なファイルが見つかりません:";
     Print "   - 音声ファイル (audio.mp3, audio.wav 等)";
     Input exit_prompt ],
   Return tt).
Proof. vm_compute. reflexivity. Qed.

Example windows_paths :
  audio_path (mkWorld (mkPath Windows "C:\" ["conv"])
                ["cover.PNG"; "AUDIO.Mp3"] (fun _ => Exited 0))
  = Some (mkPath Windows "C:\" ["conv"; "AUDIO.Mp3"])
  /\ str (mkPath Windows "C:\" ["conv"; "AUDIO.Mp3"]) = "C:\conv\AUDIO.Mp3"
  /\ audio_path (sample_world ["cover.PNG"; "AUDIO.Mp3"] (Exited 0)) = None.
Proof. repeat split; vm_compute; reflexivity. Qed.

(** On Windows the dotted capital I and the dotless i are taken for the [i]
    of [audio.*]; on POSIX they are not. *)
Example windows_dotted_i :
  audio_path (mkWorld (mkPath Windows "C:\" ["conv"])
                ["audıo.wav"; "AUDİO.MP3"] (fun _ => Exited 0))
  = Some (mkPath Windows "C:\" ["conv"; "audıo.wav"])
  /\ glob_equal Windows "audio" "AUDİO" = true
  /\ glob_equal Windows "audio" "audi̇o" = false
  /\ audio_path (sample_world ["audıo.wav"; "AUDİO.MP3"] (Exited 0))
     = None.
Proof. repeat split; vm_compute; reflexivity. Qed.

(** A run with standard input at end-of-file: every line is printed, the
    prompt is shown, and the error of the read leaves [main]. *)
Example run_at_end_of_file :
  main_on eof_console success_world =
  (trace (main success_world),
   Raise (OtherException "EOF when reading a line")).
Proof. vm_compute. reflexivity. Qed.

(** ** Strings *)

Lemma append_nil_r (s : string) : s +:+ EmptyString = s.
Proof. induction s as [|c s IH]; simpl; [reflexivity | now rewrite IH]. Qed.

Lemma append_assoc (s t u : string) : (s +:+ t) +:+ u = s +:+ t +:+ u.
Proof. induction s as [|c s IH]; simpl; [reflexivity | now rewrite IH]. Qed.

Lemma length_append (s t : string) :
  String.length (s +:+ t) = (String.length s + String.length t)%nat.
Proof. induction s as [|c s IH]; simpl; [reflexivity | now rewrite IH]. Qed.

Lemma drop_append (s t : string) : Str.drop (String.length s) (s +:+ t) = t.
Proof. induction s as [|c s IH]; simpl; [now destruct t | exact IH]. Qed.

Lemma occurs_in_append (pre t : string) : Str.occurs_in t (pre +:+ t).
Proof. exists pre, EmptyString. now rewrite append_nil_r. Qed.

(** [rfind] finds the dot that is followed by no other dot. *)
Lemma rfind_dot_last (s e : string) :
  Str.rfind_dot e = None ->
  Str.rfind_dot (s +:+ "." +:+ e) = Some (String.length s).
Proof.
  intros He. induction s as [|c s IH]; simpl in *.
  - now rewrite He.
  - now rewrite IH.
Qed.

(** The suffix of [s.e], for a non-empty [s] and a non-empty, dot-free [e],
    is [.e]: nothing of [s] takes part in it. *)
Lemma suffix_of_final (s e : string) :
  s <> EmptyString -> e <> EmptyString -> Str.rfind_dot e = None ->
  suffix_of (s +:+ "." +:+ e) = "." +:+ e.
Proof.
  intros Hs He Hdot. unfold suffix_of.
  rewrite (rfind_dot_last s e Hdot), length_append, drop_append.
  destruct s as [|c s]; [congruence|]. destruct e as [|d e]; [congruence|].
  simpl String.length.
  replace (0 <? S (String.length s))%nat with true
    by (symmetry; apply Nat.ltb_lt; lia).
  replace (S (String.length s) <?
             S (String.length s) + S (S (String.length e)) - 1)%nat with true
    by (symmetry; apply Nat.ltb_lt; lia).
  reflexivity.
Qed.

Lemma rfind_dot_append (s t : string) :
  Str.rfind_dot (s +:+ t) =
  match Str.rfind_dot t with
  | Some j => Some (String.length s + j)%nat
  | None => Str.rfind_dot s
  end.
Proof.
  induction s as [|c s IH]; simpl.
  - now destruct (Str.rfind_dot t).
  - rewrite IH. now destruct (Str.rfind_dot t).
Qed.

Lemma take_append (s t : string) (k : nat) :
  Str.take (String.length s + k) (s +:+ t) = s +:+ Str.take k t.
Proof. induction s as [|c s IH]; simpl; [reflexivity | now rewrite IH]. Qed.

Lemma lower_append (s t : string) :
  Str.lower (s +:+ t) = Str.lower s +:+ Str.lower t.
Proof. induction s as [|c s IH]; simpl; [reflexivity | now rewrite IH]. Qed.

Lemma prefix_append (s t : string) : String.prefix s (s +:+ t) = true.
Proof.
  induction s as [|c s IH]; simpl.
  - now destruct t.
  - destruct (ascii_dec c c); [exact IH | congruence].
Qed.

(** Lower-casing never produces a dot from another character. *)
Lemma lower_ascii_dot (c : ascii) : Str.lower_ascii c = "."%char -> c = "."%char.
Proof.
  destruct c as [[] [] [] [] [] [] [] []]; vm_compute; congruence.
Qed.

(** ** Globbing *)

Lemma fnmatch_star (ci : bool) (n : string) : fnmatch ci "*" n = true.
Proof.
  induction n as [|c n IH].
  - reflexivity.
  - simpl in *. exact IH.
Qed.

Lemma literal_append (lit lit' : string) :
  literal lit = true -> literal lit' = true -> literal (lit +:+ lit') = true.
Proof.
  intros H H'. induction lit as [|p lit IH]; [exact H'|].
  simpl in *. apply andb_prop in H as [-> H]. now apply IH.
Qed.

(** On POSIX a pattern character matches itself and nothing else. *)
Lemma match_char_posix (p : ascii) (n r : string) :
  match_char false p n = Some r <-> n = String p r.
Proof.
  destruct n as [|c n]; simpl.
  - split; discriminate.
  - destruct (Ascii.eqb p c) eqn:E.
    + apply Ascii.eqb_eq in E as ->. split; congruence.
    + apply Ascii.eqb_neq in E. split; [discriminate | congruence].
Qed.

(** On POSIX a pattern [lit*] matches exactly the names that begin with
    [lit], letter for letter. *)
Lemma fnmatch_posix_prefix (lit n : string) :
  literal lit = true ->
  fnmatch false (lit +:+ "*") n = true <-> exists rest, n = lit +:+ rest.
Proof.
  revert n. induction lit as [|p lit IH]; intros n Hlit.
  - rewrite fnmatch_star. split; [intros _; now exists n | reflexivity].
  - simpl in Hlit. apply andb_prop in Hlit as [Hp Hlit].
    apply negb_true_iff in Hp.
    change (String p lit +:+ "*") with (String p (lit +:+ "*")).
    cbn [fnmatch]. rewrite Hp.
    destruct (match_char false p n) as [r|] eqn:E.
    + apply match_char_posix in E as ->. rewrite (IH r Hlit).
      split; intros [rest H]; exists rest; simpl in *; congruence.
    + split; [discriminate|]. intros [rest ->]. simpl in E.
      now rewrite Ascii.eqb_refl in E.
Qed.

(** On POSIX a pattern without [*] matches itself only. *)
Lemma fnmatch_posix_literal (lit n : string) :
  literal lit = true -> fnmatch false lit n = true -> n = lit.
Proof.
  revert n. induction lit as [|p lit IH]; intros n Hlit Hm.
  - now destruct n.
  - simpl in Hlit. apply andb_prop in Hlit as [Hp Hlit].
    apply negb_true_iff in Hp. cbn [fnmatch] in Hm. rewrite Hp in Hm.
    destruct (match_char false p n) as [r|] eqn:E; [|discriminate].
    apply match_char_posix in E as ->. now rewrite (IH r Hlit Hm).
Qed.

(** Only a dot matches the dot of a pattern, on either flavour. *)
Lemma match_char_dot (ci : bool) (n r : string) :
  match_char ci "." n = Some r -> n = String "." r.
Proof.
  destruct n as [|c n]; [discriminate|]. destruct ci; cbn [match_char].
  - change (Str.lower_ascii ".") with "."%char.
    change (folded_variants ".") with (@nil string).
    destruct (Ascii.eqb "." (Str.lower_ascii c)) eqn:E; [|discriminate].
    apply Ascii.eqb_eq in E. symmetry in E. apply lower_ascii_dot in E.
    congruence.
  - destruct (Ascii.eqb "." c) eqn:E; [|discriminate].
    apply Ascii.eqb_eq in E. congruence.
Qed.

Lemma strip_prefix_append (t r : string) : strip_prefix t (t +:+ r) = Some r.
Proof.
  induction t as [|a t IH]; [reflexivity|].
  simpl. now rewrite Ascii.eqb_refl.
Qed.

Lemma strip_prefix_some (t s r : string) :
  strip_prefix t s = Some r -> s = t +:+ r.
Proof.
  revert s. induction t as [|a t IH]; intros s H; simpl in *.
  - congruence.
  - destruct s as [|b s]; [discriminate|].
    destruct (Ascii.eqb a b) eqn:E; [|discriminate].
    apply Ascii.eqb_eq in E as ->. now rewrite (IH s H).
Qed.

Lemma strip_any_some (l : list string) (s r : string) :
  strip_any l s = Some r -> exists t, In t l /\ s = t +:+ r.
Proof.
  induction l as [|t l IH]; [discriminate|]. cbn [strip_any].
  destruct (strip_prefix t s) as [r0|] eqn:E.
  - intros H; injection H as <-. exists t. split; [now left|].
    now apply strip_prefix_some.
  - intros H. destruct (IH H) as (t' & Hin & Hs). exists t'.
    split; [now right | exact Hs].
Qed.

(** What a pattern character matches at the beginning of a name is a piece
    [tok] of the name that it matches wherever it stands. *)
Lemma match_char_token (ci : bool) (p : ascii) (n r : string) :
  match_char ci p n = Some r ->
  exists tok, n = tok +:+ r
              /\ forall r', match_char ci p (tok +:+ r') = Some r'.
Proof.
  destruct n as [|c n]; [discriminate|]. destruct ci.
  - cbn [match_char].
    destruct (Ascii.eqb (Str.lower_ascii p) (Str.lower_ascii c)) eqn:E.
    + intros H; injection H as <-. exists (String c EmptyString).
      split; [reflexivity|]. intros r'. simpl. now rewrite E.
    + intros H. apply strip_any_some in H as (tok & Hin & Hn).
      exists tok. split; [exact Hn|]. intros r'.
      unfold folded_variants in Hin.
      destruct (Ascii.eqb (Str.lower_ascii p) "i") eqn:Ei;
        [|destruct (Ascii.eqb (Str.lower_ascii p) "k") eqn:Ek;
          [|destruct (Ascii.eqb (Str.lower_ascii p) "s") eqn:Es]];
        cbn [In] in Hin;
        repeat (destruct Hin as [<-|Hin]); try contradiction;
        cbn [String.append] in Hn; injection Hn as -> _;
        cbn [String.append match_char]; rewrite E;
        unfold folded_variants; rewrite ?Ei, ?Ek, ?Es; reflexivity.
  - cbn [match_char]. destruct (Ascii.eqb p c) eqn:E; [|discriminate].
    intros H; injection H as <-. exists (String c EmptyString).
    split; [reflexivity|]. intros r'. simpl. now rewrite E.
Qed.

(** A name matched by [lit.*] is [pre.rest] where [pre] is matched by
    [lit]. *)
Lemma fnmatch_split (ci : bool) (lit n : string) :
  literal lit = true ->
  fnmatch ci (lit +:+ ".*") n = true ->
  exists pre rest, n = pre +:+ String "." rest /\ fnmatch ci lit pre = true.
Proof.
  revert n. induction lit as [|p lit IH]; intros n Hlit Hm.
  - cbn [String.append fnmatch Ascii.eqb Bool.eqb] in Hm.
    destruct (match_char ci "." n) as [r|] eqn:E; [|discriminate].
    apply match_char_dot in E as ->. now exists EmptyString, r.
  - simpl in Hlit. apply andb_prop in Hlit as [Hp Hlit].
    apply negb_true_iff in Hp.
    change (String p lit +:+ ".*") with (String p (lit +:+ ".*")) in Hm.
    cbn [fnmatch] in Hm. rewrite Hp in Hm.
    destruct (match_char ci p n) as [r|] eqn:E; [|discriminate].
    destruct (IH r Hlit Hm) as (pre & rest & -> & Hpre).
    destruct (match_char_token ci p _ _ E) as (tok & -> & Htok).
    exists (tok +:+ pre), rest. split; [now rewrite append_assoc|].
    cbn [fnmatch]. now rewrite Hp, Htok.
Qed.

(** ** Paths *)

Lemma name_truediv (d : Path) (n : string) : name (truediv d n) = n.
Proof. unfold name, truediv; simpl. apply List.last_last. Qed.

Lemma suffix_truediv (d : Path) (n : string) :
  suffix (truediv d n) = suffix_of n.
Proof. unfold suffix. now rewrite name_truediv. Qed.

Lemma truediv_inj (d d' : Path) (n n' : string) :
  truediv d n = truediv d' n' -> d = d' /\ n = n'.
Proof.
  destruct d as [f a l], d' as [f' a' l']; unfold truediv; simpl.
  intros H. injection H as -> -> H.
  apply app_inj_tail in H as [-> ->]. now split.
Qed.

Lemma join_snoc (sp : string) (l : list string) (n : string) :
  Str.ends_with (Str.join sp (l ++ [n])) n.
Proof.
  induction l as [|x l IH].
  - now exists EmptyString.
  - destruct IH as [pre Hpre].
    exists (x +:+ sp +:+ pre).
    change ((x :: l) ++ [n]) with (x :: (l ++ [n])).
    destruct (l ++ [n]) as [|y t] eqn:E.
    + now destruct l.
    + cbn [Str.join]. cbn [Str.join] in Hpre. rewrite Hpre.
      now rewrite !append_assoc.
Qed.

(** The string of a child path ends in the child's name. *)
Lemma str_truediv_ends (d : Path) (n : string) :
  Str.ends_with (str (truediv d n)) n.
Proof.
  unfold str, truediv; simpl.
  destruct (join_snoc (sep (flav d)) (parts d) n) as [pre ->].
  exists (anchor d +:+ pre). now rewrite append_assoc.
Qed.

(** ** Discovery *)

Lemma allowed_truediv (exts : gset string) (d : Path) (n : string) :
  allowed exts (truediv d n) = bool_decide (Str.lower (suffix_of n) ∈ exts).
Proof. unfold allowed. now rewrite suffix_truediv. Qed.

(** Discovery returns the first qualifying entry of the enumeration. *)
Lemma find_candidate_first (d : Path) (es : list string) (pattern : string)
    (exts : gset string) :
  find_candidate d es pattern exts =
  option_map (truediv d)
    (List.head (List.filter (candidate (flav d) pattern exts) es)).
Proof.
  unfold find_candidate, next, glob, candidate.
  induction es as [|n es IH]; [reflexivity|].
  cbn [List.filter].
  destruct (fnmatch (case_insensitive (flav d)) pattern n); cbn [andb].
  - cbn [List.map List.filter]. rewrite allowed_truediv.
    destruct (bool_decide (Str.lower (suffix_of n) ∈ exts)).
    + reflexivity.
    + exact IH.
  - exact IH.
Qed.

Section FirstMatch.
Context {A : Type} (P : A -> bool).

Lemma head_filter_unique (l : list A) (a : A) :
  In a l -> P a = true ->
  (forall b, In b l -> P b = true -> b = a) ->
  List.head (List.filter P l) = Some a.
Proof.
  intros Hin Ha Huniq.
  assert (Hfa : In a (List.filter P l)) by (apply filter_In; now split).
  destruct (List.filter P l) as [|b t] eqn:E; [destruct Hfa|].
  assert (Hb : In b (List.filter P l)) by (rewrite E; now left).
  apply filter_In in Hb as [Hb1 Hb2].
  simpl. f_equal. now apply Huniq.
Qed.

Lemma head_filter_none (l : list A) :
  (forall b, In b l -> P b = false) ->
  List.head (List.filter P l) = None.
Proof.
  intros Hnone.
  destruct (List.filter P l) as [|b t] eqn:E; [reflexivity|].
  assert (Hb : In b (List.filter P l)) by (rewrite E; now left).
  apply filter_In in Hb as [Hb1 Hb2].
  rewrite (Hnone b Hb1) in Hb2. discriminate.
Qed.

Lemma head_filter_some (l : list A) (a : A) :
  List.head (List.filter P l) = Some a -> In a l /\ P a = true.
Proof.
  intros H. apply filter_In.
  destruct (List.filter P l) as [|b t]; [discriminate|].
  injection H as ->. now left.
Qed.
End FirstMatch.

(** Whatever is selected is an entry of the directory that qualifies. *)
Lemma find_candidate_some (d : Path) (es : list string) (pattern : string)
    (exts : gset string) (p : Path) :
  find_candidate d es pattern exts = Some p ->
  exists n, p = truediv d n /\ In n es
            /\ candidate (flav d) pattern exts n = true.
Proof.
  rewrite find_candidate_first.
  destruct (List.head _) as [n|] eqn:E; [|discriminate].
  intros H; injection H as <-.
  apply head_filter_some in E as [Hin Hc]. now exists n.
Qed.

Lemma find_candidate_unique (d : Path) (es : list string) (pattern : string)
    (exts : gset string) (n : string) :
  In n es -> candidate (flav d) pattern exts n = true ->
  (forall m, In m es -> candidate (flav d) pattern exts m = true -> m = n) ->
  find_candidate d es pattern exts = Some (truediv d n).
Proof.
  intros Hin Hc Huniq. rewrite find_candidate_first.
  now rewrite (head_filter_unique _ es n Hin Hc Huniq).
Qed.

Lemma find_candidate_none (d : Path) (es : list string) (pattern : string)
    (exts : gset string) :
  (forall m, In m es -> candidate (flav d) pattern exts m = false) ->
  find_candidate d es pattern exts = None.
Proof.
  intros Hnone. rewrite find_candidate_first.
  now rewrite (head_filter_none _ es Hnone).
Qed.

Lemma candidate_allowed (f : flavour) (pattern : string)
    (exts : gset string) (n : string) :
  candidate f pattern exts n = true -> Str.lower (suffix_of n) ∈ exts.
Proof.
  unfold candidate. intros H. apply andb_prop in H as [_ H].
  now apply bool_decide_eq_true in H.
Qed.

(** On POSIX the name of a selected audio file begins with [audio.], letter
    for letter. *)
Lemma posix_selected_name (w : world) (p : Path) :
  flav (script_dir w) = Posix ->
  audio_path w = Some p ->
  exists rest, name p = "audio." +:+ rest.
Proof.
  intros Hposix Hp. apply find_candidate_some in Hp as (n & -> & _ & Hc).
  rewrite name_truediv. rewrite Hposix in Hc. unfold candidate in Hc.
  apply andb_prop in Hc as [Hm _]. cbn [case_insensitive] in Hm.
  now apply (fnmatch_posix_prefix "audio." n) in Hm.
Qed.

(** ** Final extension and stem of a selected file *)

(** The stem of [pre.rest], when it has a suffix, is [pre] or begins with
    [pre.]. *)
Lemma stem_of_dotted (pre rest : string) :
  suffix_of (pre +:+ String "." rest) <> EmptyString ->
  stem_of (pre +:+ String "." rest) = pre
  \/ exists more, stem_of (pre +:+ String "." rest)
                  = (pre +:+ ".") +:+ more.
Proof.
  unfold suffix_of, stem_of. rewrite rfind_dot_append. cbn [Str.rfind_dot].
  destruct (Str.rfind_dot rest) as [j|]; cbn [Ascii.eqb Bool.eqb];
    match goal with
    | |- context [if ?b then _ else _] => destruct b
    end; try congruence; intros _.
  - right. exists (Str.take j rest).
    rewrite take_append, append_assoc. reflexivity.
  - left. rewrite take_append. simpl. apply append_nil_r.
Qed.

(** What is selected by [lit.*] has a stem that is, or begins with, a [pre]
    that the flavour's matcher takes for [lit]. *)
Lemma candidate_stem (f : flavour) (lit : string) (exts : gset string)
    (n : string) :
  literal lit = true ->
  EmptyString ∉ exts ->
  candidate f (lit +:+ ".*") exts n = true ->
  exists pre, glob_equal f lit pre = true
              /\ (stem_of n = pre
                  \/ Str.starts_with (stem_of n) (pre +:+ ".") = true).
Proof.
  intros Hlit Hexts Hc. unfold candidate in Hc.
  apply andb_prop in Hc as [Hm Hs]. apply bool_decide_eq_true in Hs.
  destruct (fnmatch_split _ lit n Hlit Hm) as (pre & rest & -> & Hpre).
  exists pre. split; [exact Hpre|].
  destruct (stem_of_dotted pre rest) as [->|[more ->]].
  - intros Hnil. rewrite Hnil in Hs. now apply Hexts.
  - now left.
  - right. apply prefix_append.
Qed.

Lemma empty_not_audio_ext : EmptyString ∉ AUDIO_EXTS.
Proof.
  intros H. apply (bool_decide_pack (EmptyString ∈ AUDIO_EXTS)) in H.
  vm_compute in H. exact H.
Qed.

Lemma empty_not_image_ext : EmptyString ∉ IMAGE_EXTS.
Proof.
  intros H. apply (bool_decide_pack (EmptyString ∈ IMAGE_EXTS)) in H.
  vm_compute in H. exact H.
Qed.

(** ** The two shapes of a run *)

Lemma main_found (w : world) (a i : Path) :
  audio_path w = Some a -> image_path w = Some i ->
  main w =
  (prologue w ++
   [ Print ("🎵 発見: " +:+ name a);
     Print ("🖼️  発見: " +:+ name i);
     Print ("🎥 作成: " +:+ OUTPUT_FILENAME);
     Print (Str.times "-" 40);
     Run (command w a i) ] ++
   report (tool w (command w a i)) ++ [ Input exit_prompt ],
   Return tt).
Proof.
  intros Ha Hi. unfold main, main_on. rewrite Ha, Hi.
  unfold missing, not_, name_attr, str_opt, subprocess_run, command, report.
  cbn [app].
  assert (Hn : name (output_path w) = OUTPUT_FILENAME)
    by apply name_truediv.
  rewrite Hn.
  destruct (tool w _) as [status|description]; [destruct (status =? 0)%Z|];
    reflexivity.
Qed.

Lemma main_missing (w : world) :
  audio_path w = None \/ image_path w = None ->
  main w =
  (prologue w ++
   [ Print missing_header ] ++
   List.map (fun m => Print ("   - " +:+ m))
     (missing (audio_path w) (image_path w)) ++
   [ Input exit_prompt ],
   Return tt).
Proof.
  intros H. unfold main, main_on.
  destruct (audio_path w) as [a|], (image_path w) as [i|];
    try reflexivity.
  destruct H; discriminate.
Qed.

(** Every run is of one of the two shapes. *)
Lemma main_cases (w : world) :
  (exists a i, audio_path w = Some a /\ image_path w = Some i)
  \/ (audio_path w = None \/ image_path w = None).
Proof.
  destruct (audio_path w) as [a|], (image_path w) as [i|]; eauto.
Qed.

Lemma audio_path_find (w : world) :
  audio_path w = find_candidate (script_dir w) (entries w) "audio.*" AUDIO_EXTS.
Proof. reflexivity. Qed.

Lemma image_path_find (w : world) :
  image_path w = find_candidate (script_dir w) (entries w) "cover.*" IMAGE_EXTS.
Proof. reflexivity. Qed.

(** The report of the tool's result only prints. *)
Lemma report_prints (r : tool_result) (c : list string) :
  ~ In (Run c) (report r).
Proof.
  destruct r as [status|d]; simpl; [destruct (status =? 0)%Z|]; simpl;
    intuition discriminate.
Qed.

(** The tool is called at most on the command built from the two selected
    paths, and only when both were found. *)
Lemma run_in_trace (w : world) (c : list string) :
  In (Run c) (trace (main w)) ->
  exists a i, audio_path w = Some a /\ image_path w = Some i
              /\ c = command w a i.
Proof.
  intros Hrun. destruct (main_cases w) as [(a & i & Ha & Hi)|Hmiss].
  - exists a, i. repeat split; try assumption.
    rewrite (main_found w a i Ha Hi) in Hrun. unfold trace, prologue in Hrun.
    cbn [fst app] in Hrun.
    repeat (destruct Hrun as [Hrun|Hrun]; [try discriminate|]).
    + now injection Hrun.
    + apply in_app_or in Hrun as [Hrun|Hrun].
      * now apply report_prints in Hrun.
      * destruct Hrun as [Hrun|[]]. discriminate.
  - exfalso. rewrite (main_missing w Hmiss) in Hrun.
    unfold trace, prologue in Hrun. cbn [fst app] in Hrun.
    repeat (destruct Hrun as [Hrun|Hrun]; [discriminate|]).
    apply in_app_or in Hrun as [Hrun|Hrun].
    + apply in_map_iff in Hrun as (m & Hm & _). discriminate.
    + destruct Hrun as [Hrun|[]]. discriminate.
Qed.

(** Every run ends by waiting for the user. *)
Lemma main_ends_with_input (w : world) :
  exists pre, trace (main w) = pre ++ [Input exit_prompt].
Proof.
  destruct (main_cases w) as [(a & i & Ha & Hi)|Hmiss].
  - rewrite (main_found w a i Ha Hi). unfold trace; cbn [fst].
    eexists. rewrite !app_assoc. reflexivity.
  - rewrite (main_missing w Hmiss). unfold trace; cbn [fst].
    eexists. rewrite !app_assoc. reflexivity.
Qed.

Lemma main_returns (w : world) : result (main w) = Return tt.
Proof.
  destruct (main_cases w) as [(a & i & Ha & Hi)|Hmiss].
  - now rewrite (main_found w a i Ha Hi).
  - now rewrite (main_missing w Hmiss).
Qed.

(** In a directory that holds only [audio.mp3] and [cover.png], in either
    order and on either flavour, these two are selected. *)
Lemma only_two_files (d : Path) (es : list string)
    (t : list string -> tool_result) :
  es = ["audio.mp3"; "cover.png"] \/ es = ["cover.png"; "audio.mp3"] ->
  audio_path (mkWorld d es t) = Some (truediv d "audio.mp3")
  /\ image_path (mkWorld d es t) = Some (truediv d "cover.png").
Proof.
  intros Hes. rewrite audio_path_find, image_path_find.
  rewrite !find_candidate_first. cbn [script_dir entries].
  destruct (flav d), Hes as [-> | ->]; split;
    match goal with
    | |- option_map _ (List.head ?l) = _ =>
        let l' := eval vm_compute in l in
        change l with l'; reflexivity
    end.
Qed.

(** On a console that can show every line, a run has the events of an
    interactive run, and it ends as the read at the prompt ends. *)
Lemma main_on_encodable (k : console) (w : world) :
  (forall line, encodes k line = true) ->
  main_on k w =
  (trace (main w),
   match stdin k with
   | Some _ => Return tt
   | None => Raise (OtherException "EOF when reading a line")
   end).
Proof.
  intros Henc. unfold main, main_on, trace.
  destruct (audio_path w) as [a|], (image_path w) as [i|];
    unfold missing, not_, name_attr, str_opt, subprocess_run, print_on,
      input_on;
    cbn [interactive encodes stdin];
    try (destruct (tool w _) as [status|description];
         [destruct (status =? 0)%Z|]);
    repeat (progress (cbn [bind try_except ret raise for_each fst app];
                      rewrite ?Henc));
    destruct (stdin k); reflexivity.
Qed.

(** ** Claims *)

(** C1. When the directory holds exactly one entry matched by [audio.*] with
    an allowed audio extension and exactly one matched by [cover.*] with an
    allowed image extension, discovery selects those two entries and the tool
    is run on the command built from them.  In every directory, a selected
    file has an extension of its category's allow-set; [audio.txt] is never
    selected. *)
Theorem C1_unique_candidates_selected (w : world) :
  (forall a i : string,
     sole_candidate w "audio.*" AUDIO_EXTS a ->
     sole_candidate w "cover.*" IMAGE_EXTS i ->
     audio_path w = Some (truediv (script_dir w) a)
     /\ image_path w = Some (truediv (script_dir w) i)
     /\ In (Run (cmd (str (truediv (script_dir w) i))
                     (str (truediv (script_dir w) a))
                     (str (output_path w))))
           (trace (main w))
     /\ forall c, In (Run c) (trace (main w)) ->
                  c = cmd (str (truediv (script_dir w) i))
                          (str (truediv (script_dir w) a))
                          (str (output_path w)))
  /\ (forall p, audio_path w = Some p -> Str.lower (suffix p) ∈ AUDIO_EXTS)
  /\ (forall p, image_path w = Some p -> Str.lower (suffix p) ∈ IMAGE_EXTS)
  /\ (forall p, audio_path w = Some p -> name p <> "audio.txt").
Proof.
  split; [|repeat split].
  - intros a i (Hin & Hc & Hu) (Hin' & Hc' & Hu').
    assert (Ha : audio_path w = Some (truediv (script_dir w) a))
      by now apply find_candidate_unique.
    assert (Hi : image_path w = Some (truediv (script_dir w) i))
      by now apply find_candidate_unique.
    repeat split; try assumption.
    + rewrite (main_found w _ _ Ha Hi). unfold trace; cbn [fst].
      apply in_or_app; right. cbn. do 4 right. now left.
    + intros c Hrun.
      apply run_in_trace in Hrun as (a' & i' & Ha' & Hi' & ->).
      rewrite Ha in Ha'. rewrite Hi in Hi'.
      injection Ha' as <-. injection Hi' as <-. reflexivity.
  - intros p Hp. apply find_candidate_some in Hp as (n & -> & _ & Hc).
    rewrite suffix_truediv. eapply candidate_allowed; eassumption.
  - intros p Hp. apply find_candidate_some in Hp as (n & -> & _ & Hc).
    rewrite suffix_truediv. eapply candidate_allowed; eassumption.
  - intros p Hp Hname. apply find_candidate_some in Hp as (n & -> & _ & Hc).
    rewrite name_truediv in Hname. subst n.
    destruct (flav (script_dir w)); vm_compute in Hc; discriminate.
Qed.

Lemma C1_unique_candidates_selected_witness :
  audio_path mixed_world = Some (truediv sample_dir "audio.MP3")
  /\ image_path mixed_world = Some (truediv sample_dir "cover.png")
  /\ In (Run (cmd "/home/user/conv/cover.png" "/home/user/conv/audio.MP3"
                  "/home/user/conv/movie.mp4"))
        (trace (main mixed_world)).
Proof.
  destruct (proj1 (C1_unique_candidates_selected mixed_world)
              "audio.MP3" "cover.png")
    as (Ha & Hi & Hrun & _).
  - split; [|split].
    + simpl. tauto.
    + vm_compute. reflexivity.
    + intros m Hm Hc.
      destruct Hm as [<-|[<-|[<-|[<-|[]]]]];
        first [reflexivity | vm_compute in Hc; discriminate].
  - split; [|split].
    + simpl. tauto.
    + vm_compute. reflexivity.
    + intros m Hm Hc.
      destruct Hm as [<-|[<-|[<-|[<-|[]]]]];
        first [reflexivity | vm_compute in Hc; discriminate].
  - repeat split; assumption.
Defined.

(** C2. When no entry qualifies as the audio file, or none qualifies as the
    image, the run returns without calling the tool, and the diagnostic lists
    the label of every missing category before the final prompt. *)
Theorem C2_missing_input_stops_before_tool (w : world) :
  no_candidate w "audio.*" AUDIO_EXTS \/ no_candidate w "cover.*" IMAGE_EXTS ->
  result (main w) = Return tt
  /\ (forall c, ~ In (Run c) (trace (main w)))
  /\ In (Print missing_header) (trace (main w))
  /\ (no_candidate w "audio.*" AUDIO_EXTS ->
      In (Print ("   - " +:+ audio_label)) (trace (main w)))
  /\ (no_candidate w "cover.*" IMAGE_EXTS ->
      In (Print ("   - " +:+ image_label)) (trace (main w)))
  /\ exists pre, trace (main w) = pre ++ [Input exit_prompt].
Proof.
  intros Hnone.
  assert (Hmiss : audio_path w = None \/ image_path w = None).
  { destruct Hnone as [H|H]; [left|right]; now apply find_candidate_none. }
  split; [apply main_returns|].
  split.
  { intros c Hrun. apply run_in_trace in Hrun as (a & i & Ha & Hi & _).
    destruct Hmiss; congruence. }
  split.
  { rewrite (main_missing w Hmiss). unfold trace, prologue; cbn.
    do 2 right. now left. }
  split; [|split; [|apply main_ends_with_input]].
  - intros H.
    assert (Ha : audio_path w = None) by now apply find_candidate_none.
    rewrite (main_missing w Hmiss), Ha. unfold trace, prologue.
    destruct (image_path w); cbn; do 3 right; now left.
  - intros H.
    assert (Hi : image_path w = None) by now apply find_candidate_none.
    rewrite (main_missing w Hmiss), Hi. unfold trace, prologue.
    destruct (audio_path w); cbn.
    + do 3 right. now left.
    + do 4 right. now left.
Qed.

Lemma C2_missing_input_stops_before_tool_witness :
  result (main xyz_world) = Return tt
  /\ (forall c, ~ In (Run c) (trace (main xyz_world)))
  /\ In (Print ("   - " +:+ audio_label)) (trace (main xyz_world)).
Proof.
  assert (H : no_candidate xyz_world "audio.*" AUDIO_EXTS).
  { intros n [<-|[<-|[]]]; vm_compute; reflexivity. }
  destruct (C2_missing_input_stops_before_tool xyz_world (or_introl H))
    as (Hret & Hrun & _ & Haudio & _).
  split; [exact Hret | split; [exact Hrun | exact (Haudio H)]].
Defined.

(** C3. In a run that calls the tool: when the tool exits with status zero
    the success banner, which names the output file, is printed and no
    failure diagnostic is; when it exits with another status the tool-failure
    diagnostic is printed and the success banner is not. *)
Theorem C3_report_follows_exit_status (w : world) (c : list string)
    (status : Z) :
  In (Run c) (trace (main w)) ->
  tool w c = Exited status ->
  (status = 0%Z ->
   In (Print (success_banner OUTPUT_FILENAME)) (trace (main w))
   /\ Str.occurs_in OUTPUT_FILENAME (success_banner OUTPUT_FILENAME)
   /\ forall line, In (Print line) (trace (main w)) ->
                   ~ failure_diagnostic line)
  /\ (status <> 0%Z ->
      In (Print tool_failure_line) (trace (main w))
      /\ forall name, ~ In (Print (success_banner name)) (trace (main w))).
Proof.
  intros Hrun Htool.
  apply run_in_trace in Hrun as (a & i & Ha & Hi & ->).
  rewrite (main_found w a i Ha Hi), Htool.
  unfold trace, prologue, report; cbn [fst].
  split.
  - intros ->. cbn [Z.eqb]. split; [|split].
    + cbn. do 8 right. now left.
    + apply occurs_in_append.
    + intros line Hin [Hd|[[d Hd]|Hd]]; subst line; cbn in Hin; sift Hin.
  - intros Hne. apply Z.eqb_neq in Hne. rewrite Hne. split.
    + cbn. do 7 right. now left.
    + intros n Hin. cbn in Hin. sift Hin.
Qed.

Lemma C3_report_follows_exit_status_witness :
  In (Print (success_banner OUTPUT_FILENAME)) (trace (main success_world))
  /\ In (Print tool_failure_line) (trace (main failure_world)).
Proof.
  split.
  - apply (C3_report_follows_exit_status success_world sample_command 0).
    + vm_compute. do 6 right. now left.
    + reflexivity.
    + reflexivity.
  - apply (C3_report_follows_exit_status failure_world sample_command 1).
    + vm_compute. do 6 right. now left.
    + reflexivity.
    + discriminate.
Defined.

(** C4. Whatever the two paths and the output path, the command holds
    [-y], [-shortest] and the pad filter (as the value of [-vf]) verbatim;
    the command a run passes to the tool is this list for the two selected
    paths, and two runs that select the same two paths pass the same
    command. *)
Theorem C4_command_is_fixed_shape :
  (forall image audio output : string,
     In "-y" (cmd image audio output)
     /\ In "-shortest" (cmd image audio output)
     /\ In pad_filter (cmd image audio output)
     /\ exists pre post,
          cmd image audio output = pre ++ ["-vf"; pad_filter] ++ post)
  /\ (forall (w : world) (c : list string),
        In (Run c) (trace (main w)) ->
        c = cmd (str_opt (image_path w)) (str_opt (audio_path w))
                (str (output_path w))
        /\ In "-y" c /\ In "-shortest" c /\ In pad_filter c)
  /\ (forall (w1 w2 : world) (c1 c2 : list string),
        In (Run c1) (trace (main w1)) ->
        In (Run c2) (trace (main w2)) ->
        audio_path w1 = audio_path w2 ->
        image_path w1 = image_path w2 ->
        c1 = c2).
Proof.
  split; [|split].
  - intros image audio output. unfold cmd, pad_filter.
    split; [|split; [|split]].
    + cbn; tauto.
    + cbn; tauto.
    + cbn; tauto.
    + exists [ "ffmpeg"; "-y"; "-loop"; "1"; "-i"; image; "-i"; audio;
               "-c:v"; "libx264"; "-tune"; "stillimage"; "-c:a"; "aac";
               "-b:a"; "192k"; "-pix_fmt"; "yuv420p" ],
             [ "-shortest"; output ].
      reflexivity.
  - intros w c Hrun.
    apply run_in_trace in Hrun as (a & i & Ha & Hi & ->).
    rewrite Ha, Hi. unfold command, cmd, pad_filter. cbn. tauto.
  - intros w1 w2 c1 c2 H1 H2 Haudio Himage.
    apply run_in_trace in H1 as (a1 & i1 & Ha1 & Hi1 & ->).
    apply run_in_trace in H2 as (a2 & i2 & Ha2 & Hi2 & ->).
    rewrite Ha1, Ha2 in Haudio. rewrite Hi1, Hi2 in Himage.
    injection Haudio as ->. injection Himage as ->.
    apply find_candidate_some in Ha1 as (n1 & Hn1 & _).
    apply find_candidate_some in Ha2 as (n2 & Hn2 & _).
    rewrite Hn1 in Hn2. apply truediv_inj in Hn2 as [Hdir _].
    unfold command, output_path. now rewrite Hdir.
Qed.

Lemma C4_command_is_fixed_shape_witness :
  In "-y" sample_command /\ In "-shortest" sample_command
  /\ In pad_filter sample_command.
Proof.
  destruct (proj1 (proj2 C4_command_is_fixed_shape)
              success_world sample_command) as (_ & Hy & Hs & Hp).
  - vm_compute. do 6 right. now left.
  - split; [exact Hy | split; [exact Hs | exact Hp]].
Defined.

(** C5. The command a run passes to the tool has the image path as its
    first input and the audio path as its second, and its last argument is
    the output path, which ends in [movie.mp4].  For a directory that holds
    only [audio.mp3] and [cover.png], enumerated in either order, the tool is
    run with [-i <dir>/cover.png] before [-i <dir>/audio.mp3]. *)
Theorem C5_image_first_audio_second (w : world) (c : list string) :
  In (Run c) (trace (main w)) ->
  (exists a i,
     audio_path w = Some a /\ image_path w = Some i
     /\ inputs c = [str i; str a]
     /\ (exists rest,
           c = ["ffmpeg"; "-y"; "-loop"; "1"; "-i"; str i; "-i"; str a]
               ++ rest ++ [str (output_path w)])
     /\ List.last c EmptyString = str (output_path w)
     /\ Str.ends_with (str (output_path w)) "movie.mp4")
  /\ forall (d : Path) (es : list string) (t : list string -> tool_result),
       es = ["audio.mp3"; "cover.png"] \/ es = ["cover.png"; "audio.mp3"] ->
       In (Run (cmd (str (truediv d "cover.png"))
                    (str (truediv d "audio.mp3"))
                    (str (truediv d "movie.mp4"))))
          (trace (main (mkWorld d es t)))
       /\ inputs (cmd (str (truediv d "cover.png"))
                      (str (truediv d "audio.mp3"))
                      (str (truediv d "movie.mp4")))
          = [str (truediv d "cover.png"); str (truediv d "audio.mp3")]
       /\ Str.ends_with (str (truediv d "cover.png")) "cover.png"
       /\ Str.ends_with (str (truediv d "audio.mp3")) "audio.mp3"
       /\ Str.ends_with (str (truediv d "movie.mp4")) "movie.mp4".
Proof.
  intros Hrun. split.
  - apply run_in_trace in Hrun as (a & i & Ha & Hi & ->).
    exists a, i. unfold command, cmd.
    split; [exact Ha|]. split; [exact Hi|]. split; [reflexivity|].
    split; [|split].
    + exists [ "-c:v"; "libx264"; "-tune"; "stillimage"; "-c:a"; "aac";
               "-b:a"; "192k"; "-pix_fmt"; "yuv420p";
               "-vf"; "pad=ceil(iw/2)*2:ceil(ih/2)*2"; "-shortest" ].
      reflexivity.
    + reflexivity.
    + apply str_truediv_ends.
  - intros d es t Hes.
    destruct (only_two_files d es t Hes) as [Ha Hi].
    split; [|split; [reflexivity|repeat split; apply str_truediv_ends]].
    rewrite (main_found _ _ _ Ha Hi). unfold trace; cbn [fst].
    apply in_or_app; right. cbn. do 4 right. now left.
Qed.

Lemma C5_image_first_audio_second_witness :
  inputs sample_command
  = ["/home/user/conv/cover.png"; "/home/user/conv/audio.mp3"]
  /\ List.last sample_command EmptyString = "/home/user/conv/movie.mp4".
Proof.
  destruct (proj1 (C5_image_first_audio_second success_world sample_command
                     ltac:(vm_compute; do 6 right; now left)))
    as (a & i & Ha & Hi & Hin & _ & Hlast & _).
  split.
  - vm_compute in Ha, Hi. injection Ha as <-. injection Hi as <-.
    exact Hin.
  - exact Hlast.
Defined.




(** C7. When the call of the tool fails with an exception other than the
    one for a non-zero exit status, the run prints the generic diagnostic,
    which carries the exception's description, then waits for the user and
    returns: the exception does not leave [main].  Waiting for the user is
    the last event of every run. *)
Theorem C7_unexpected_fault_is_reported (w : world) (c : list string)
    (description : string) :
  In (Run c) (trace (main w)) ->
  tool w c = Failed description ->
  (exists pre,
     trace (main w) =
     pre ++ [ Run c; Print (unexpected_line description);
              Input exit_prompt ])
  /\ Str.occurs_in description (unexpected_line description)
  /\ result (main w) = Return tt
  /\ forall w' : world, exists pre, trace (main w') = pre ++ [Input exit_prompt].
Proof.
  intros Hrun Htool.
  apply run_in_trace in Hrun as (a & i & Ha & Hi & ->).
  split; [|split; [|split]].
  - rewrite (main_found w a i Ha Hi), Htool.
    unfold trace, report; cbn [fst].
    exists (prologue w ++
            [ Print ("🎵 発見: " +:+ name a);
              Print ("🖼️  発見: " +:+ name i);
              Print ("🎥 作成: " +:+ OUTPUT_FILENAME);
              Print (Str.times "-" 40) ]).
    rewrite <- app_assoc. reflexivity.
  - exists (Str.nl +:+ "❌ 予期せぬエラー: "), EmptyString.
    unfold unexpected_line. now rewrite append_nil_r, append_assoc.
  - apply main_returns.
  - apply main_ends_with_input.
Qed.

Lemma C7_unexpected_fault_is_reported_witness :
  result (main fault_world) = Return tt
  /\ exists pre,
       trace (main fault_world) =
       pre ++ [ Run sample_command;
                Print (unexpected_line
                         "[Errno 2] No such file or directory: 'ffmpeg'");
                Input exit_prompt ].
Proof.
  destruct (C7_unexpected_fault_is_reported fault_world sample_command
              "[Errno 2] No such file or directory: 'ffmpeg'")
    as (Hpre & _ & Hret & _).
  - vm_compute. do 6 right. now left.
  - reflexivity.
  - split; [exact Hret | exact Hpre].
Defined.






(** C10. The list of missing categories is one of the four sub-lists of
    [audio label; image label], so it has at most two entries, and when both
    files are missing the audio label is printed immediately before the
    image label. *)
Theorem C10_missing_list_is_ordered :
  (forall a i : option Path,
     (List.length (missing a i) <= 2)%nat
     /\ (missing a i = [] \/ missing a i = [audio_label]
         \/ missing a i = [image_label]
         \/ missing a i = [audio_label; image_label]))
  /\ missing None None = [audio_label; image_label]
  /\ (forall w : world,
        audio_path w = None -> image_path w = None ->
        trace (main w) =
        prologue w ++
        [ Print missing_header;
          Print ("   - " +:+ audio_label);
          Print ("   - " +:+ image_label);
          Input exit_prompt ]).
Proof.
  split; [|split].
  - intros [a|] [i|]; unfold missing; cbn; split; try lia; tauto.
  - reflexivity.
  - intros w Ha Hi. rewrite (main_missing w (or_introl Ha)), Ha, Hi.
    reflexivity.
Qed.

Lemma C10_missing_list_is_ordered_witness :
  trace (main empty_world) =
  prologue empty_world ++
  [ Print missing_header;
    Print ("   - " +:+ audio_label);
    Print ("   - " +:+ image_label);
    Input exit_prompt ].
Proof.
  apply (proj2 (proj2 C10_missing_list_is_ordered) empty_world);
    reflexivity.
Defined.

(** * Further properties of [main] *)

(** ** Projections of a trace *)

Lemma runs_app (t1 t2 : list event) : runs (t1 ++ t2) = runs t1 ++ runs t2.
Proof.
  induction t1 as [|e t1 IH]; [reflexivity|].
  destruct e; simpl; now rewrite IH.
Qed.

Lemma prompts_app (t1 t2 : list event) :
  prompts (t1 ++ t2) = prompts t1 ++ prompts t2.
Proof.
  induction t1 as [|e t1 IH]; [reflexivity|].
  destruct e; simpl; now rewrite IH.
Qed.

Lemma report_silent (r : tool_result) :
  runs (report r) = [] /\ prompts (report r) = [].
Proof.
  destruct r as [status|d]; simpl; [destruct (status =? 0)%Z|]; now split.
Qed.

Lemma labels_silent (l : list string) :
  runs (List.map (fun m => Print ("   - " +:+ m)) l) = []
  /\ prompts (List.map (fun m => Print ("   - " +:+ m)) l) = [].
Proof. induction l as [|m l [IH1 IH2]]; simpl; now split. Qed.

(** ** More on strings and paths *)

Lemma append_inv_head (s a b : string) : s +:+ a = s +:+ b -> a = b.
Proof.
  induction s as [|c s IH]; simpl; intros H; [exact H|].
  injection H as H. now apply IH.
Qed.

(** The string of a joined list is a prefix, fixed by the list, followed by
    the last component. *)
Lemma join_snoc_prefix (sp : string) (l : list string) :
  exists pre, forall n, Str.join sp (l ++ [n]) = pre +:+ n.
Proof.
  induction l as [|x l [pre Hpre]].
  - now exists EmptyString.
  - exists (x +:+ sp +:+ pre). intros n.
    change ((x :: l) ++ [n]) with (x :: (l ++ [n])).
    specialize (Hpre n).
    destruct (l ++ [n]) as [|y t] eqn:E.
    + now destruct l.
    + cbn [Str.join]. cbn [Str.join] in Hpre. rewrite Hpre.
      now rewrite !append_assoc.
Qed.

(** Two children of one directory with the same string are the same. *)
Lemma str_truediv_inj (d : Path) (n m : string) :
  str (truediv d n) = str (truediv d m) -> n = m.
Proof.
  unfold str, truediv; simpl.
  destruct (join_snoc_prefix (sep (flav d)) (parts d)) as [pre Hpre].
  rewrite !Hpre. intros H.
  apply append_inv_head in H. now apply append_inv_head in H.
Qed.

Lemma not_candidate_output (f : flavour) (exts : gset string) :
  candidate f "audio.*" exts OUTPUT_FILENAME = false
  /\ candidate f "cover.*" exts OUTPUT_FILENAME = false.
Proof. destruct f; split; reflexivity. Qed.

Lemma exts_disjoint (x : string) : x ∈ AUDIO_EXTS -> x ∈ IMAGE_EXTS -> False.
Proof.
  intros Ha Hi.
  assert (Hd : AUDIO_EXTS ∩ IMAGE_EXTS = ∅)
    by (apply (bool_decide_unpack _); vm_compute; exact I).
  assert (Hx : x ∈ AUDIO_EXTS ∩ IMAGE_EXTS) by (apply elem_of_intersection; now split).
  rewrite Hd in Hx. exact (not_elem_of_empty x Hx).
Qed.

(** ** Selection *)

(** X1. Discovery takes the first qualifying entry in enumeration order:
    entries before it that do not qualify, and whatever follows it, have no
    influence.  So when two names qualify, which one is selected depends on
    the order in which the directory is enumerated. *)
Theorem X1_first_qualifying_entry_wins (w : world) (pre post : list string)
    (n : string) :
  entries w = pre ++ n :: post ->
  ((forall m, In m pre ->
      candidate (flav (script_dir w)) "audio.*" AUDIO_EXTS m = false) ->
   candidate (flav (script_dir w)) "audio.*" AUDIO_EXTS n = true ->
   audio_path w = Some (truediv (script_dir w) n))
  /\ ((forall m, In m pre ->
         candidate (flav (script_dir w)) "cover.*" IMAGE_EXTS m = false) ->
      candidate (flav (script_dir w)) "cover.*" IMAGE_EXTS n = true ->
      image_path w = Some (truediv (script_dir w) n)).
Proof.
  intros Hes.
  assert (Hgen : forall pattern exts,
            (forall m, In m pre ->
               candidate (flav (script_dir w)) pattern exts m = false) ->
            candidate (flav (script_dir w)) pattern exts n = true ->
            find_candidate (script_dir w) (entries w) pattern exts
            = Some (truediv (script_dir w) n)).
  { intros pattern exts Hpre Hn.
    rewrite find_candidate_first, Hes, List.filter_app.
    replace (List.filter (candidate (flav (script_dir w)) pattern exts) pre)
      with (@nil string).
    - cbn [app List.filter]. now rewrite Hn.
    - symmetry. clear -Hpre. induction pre as [|m pre IH]; [reflexivity|].
      cbn [List.filter]. rewrite (Hpre m (or_introl eq_refl)).
      apply IH. intros m' Hm'. apply Hpre. now right. }
  split; intros Hpre Hn.
  - rewrite audio_path_find. now apply Hgen.
  - rewrite image_path_find. now apply Hgen.
Qed.

Lemma X1_first_qualifying_entry_wins_witness :
  audio_path wav_first_world = Some (truediv sample_dir "audio.wav")
  /\ audio_path mp3_first_world = Some (truediv sample_dir "audio.mp3").
Proof.
  split.
  - apply (proj1 (X1_first_qualifying_entry_wins wav_first_world
                    ["notes.txt"] ["audio.mp3"; "cover.png"] "audio.wav"
                    eq_refl)).
    + intros m [<-|[]]. vm_compute. reflexivity.
    + vm_compute. reflexivity.
  - apply (proj1 (X1_first_qualifying_entry_wins mp3_first_world
                    ["notes.txt"] ["audio.wav"; "cover.png"] "audio.mp3"
                    eq_refl)).
    + intros m [<-|[]]. vm_compute. reflexivity.
    + vm_compute. reflexivity.
Defined.

(** X2. The audio file and the image selected in a run are never the same
    entry: their names differ. *)
Theorem X2_audio_and_image_differ (w : world) (a i : Path) :
  audio_path w = Some a -> image_path w = Some i ->
  name a <> name i /\ a <> i.
Proof.
  intros Ha Hi.
  apply find_candidate_some in Ha as (na & -> & _ & Hca).
  apply find_candidate_some in Hi as (ni & -> & _ & Hci).
  assert (Hne : na <> ni).
  { intros <-. apply candidate_allowed in Hca, Hci.
    exact (exts_disjoint _ Hca Hci). }
  rewrite !name_truediv. split; [exact Hne|].
  intros H. apply truediv_inj in H as [_ H]. now apply Hne.
Qed.

Lemma X2_audio_and_image_differ_witness :
  name (truediv sample_dir "audio.mp3") <> name (truediv sample_dir "cover.png").
Proof.
  apply (X2_audio_and_image_differ success_world
           (truediv sample_dir "audio.mp3") (truediv sample_dir "cover.png"));
    vm_compute; reflexivity.
Defined.

(** X3. In the command a run passes to the tool, both inputs are entries of
    the script's directory, given by their path in that directory, and the
    output is [movie.mp4] in the same directory. *)
Theorem X3_inputs_are_directory_entries (w : world) (c : list string) :
  In (Run c) (trace (main w)) ->
  exists na ni : string,
    In na (entries w) /\ In ni (entries w)
    /\ c = cmd (str (truediv (script_dir w) ni))
               (str (truediv (script_dir w) na))
               (str (truediv (script_dir w) "movie.mp4")).
Proof.
  intros Hrun. apply run_in_trace in Hrun as (a & i & Ha & Hi & ->).
  apply find_candidate_some in Ha as (na & -> & Hna & _).
  apply find_candidate_some in Hi as (ni & -> & Hni & _).
  now exists na, ni.
Qed.

Lemma X3_inputs_are_directory_entries_witness :
  exists na ni : string,
    In na (entries success_world) /\ In ni (entries success_world)
    /\ sample_command
       = cmd (str (truediv sample_dir ni)) (str (truediv sample_dir na))
             (str (truediv sample_dir "movie.mp4")).
Proof.
  apply (X3_inputs_are_directory_entries success_world sample_command).
  vm_compute. do 6 right. now left.
Defined.

(** X4. The output argument of the command is the string of neither input:
    the tool, which is told to overwrite its output, is never pointed at the
    audio file or the image it reads. *)
Theorem X4_output_is_not_an_input (w : world) (c : list string) :
  In (Run c) (trace (main w)) ->
  ~ In (List.last c EmptyString) (inputs c).
Proof.
  intros Hrun. apply run_in_trace in Hrun as (a & i & Ha & Hi & ->).
  apply find_candidate_some in Ha as (na & -> & _ & Hca).
  apply find_candidate_some in Hi as (ni & -> & _ & Hci).
  unfold command, cmd, output_path. cbn [inputs List.last String.eqb].
  cbn. intros [H|[H|[]]]; apply str_truediv_inj in H; subst.
  - destruct (not_candidate_output (flav (script_dir w)) IMAGE_EXTS)
      as [_ Hn]. congruence.
  - destruct (not_candidate_output (flav (script_dir w)) AUDIO_EXTS)
      as [Hn _]. congruence.
Qed.

Lemma X4_output_is_not_an_input_witness :
  ~ In (List.last sample_command EmptyString) (inputs sample_command).
Proof.
  apply (X4_output_is_not_an_input success_world sample_command).
  vm_compute. do 6 right. now left.
Defined.

(** ** Shape of a run *)

(** X5. A run calls the tool once when both files were found and not at all
    otherwise; there is never a second call. *)
Theorem X5_tool_called_at_most_once (w : world) :
  runs (trace (main w)) =
  match audio_path w, image_path w with
  | Some a, Some i => [command w a i]
  | _, _ => []
  end.
Proof.
  destruct (main_cases w) as [(a & i & Ha & Hi)|Hmiss].
  - rewrite (main_found w a i Ha Hi), Ha, Hi. unfold trace; cbn [fst].
    rewrite !runs_app. destruct (report_silent (tool w (command w a i)))
      as [-> _].
    reflexivity.
  - rewrite (main_missing w Hmiss). unfold trace; cbn [fst].
    rewrite !runs_app.
    destruct (labels_silent (missing (audio_path w) (image_path w)))
      as [-> _].
    destruct Hmiss as [H|H]; rewrite H; [reflexivity|].
    now destruct (audio_path w).
Qed.

(** X6. Every run asks the user for a line exactly once, with the same
    prompt, whichever way it goes. *)
Theorem X6_one_prompt_per_run (w : world) :
  prompts (trace (main w)) = [exit_prompt].
Proof.
  destruct (main_cases w) as [(a & i & Ha & Hi)|Hmiss].
  - rewrite (main_found w a i Ha Hi). unfold trace; cbn [fst].
    rewrite !prompts_app. destruct (report_silent (tool w (command w a i)))
      as [_ ->].
    reflexivity.
  - rewrite (main_missing w Hmiss). unfold trace; cbn [fst].
    rewrite !prompts_app.
    destruct (labels_silent (missing (audio_path w) (image_path w)))
      as [_ ->].
    reflexivity.
Qed.

(** X7. Before the tool is called, the run announces the names of the two
    files it found and of the output; the names announced are the final
    components of the very paths the command holds. *)
Theorem X7_announcement_precedes_run (w : world) (c : list string) :
  In (Run c) (trace (main w)) ->
  exists (a i : Path) (post : list event),
    trace (main w) =
    prologue w ++
    [ Print ("🎵 発見: " +:+ name a);
      Print ("🖼️  発見: " +:+ name i);
      Print ("🎥 作成: " +:+ OUTPUT_FILENAME);
      Print (Str.times "-" 40);
      Run c ] ++ post
    /\ inputs c = [str i; str a]
    /\ Str.ends_with (str a) (name a)
    /\ Str.ends_with (str i) (name i)
    /\ Str.ends_with (List.last c EmptyString) OUTPUT_FILENAME.
Proof.
  intros Hrun. apply run_in_trace in Hrun as (a & i & Ha & Hi & ->).
  exists a, i, (report (tool w (command w a i)) ++ [Input exit_prompt]).
  split; [now rewrite (main_found w a i Ha Hi)|].
  split; [reflexivity|].
  apply find_candidate_some in Ha as (na & -> & _).
  apply find_candidate_some in Hi as (ni & -> & _).
  rewrite !name_truediv.
  repeat split; apply str_truediv_ends.
Qed.

Lemma X7_announcement_precedes_run_witness :
  exists (a i : Path) (post : list event),
    trace (main success_world) =
    prologue success_world ++
    [ Print ("🎵 発見: " +:+ name a);
      Print ("🖼️  発見: " +:+ name i);
      Print ("🎥 作成: " +:+ OUTPUT_FILENAME);
      Print (Str.times "-" 40);
      Run sample_command ] ++ post
    /\ inputs sample_command = [str i; str a]
    /\ Str.ends_with (str a) (name a)
    /\ Str.ends_with (str i) (name i)
    /\ Str.ends_with (List.last sample_command EmptyString) OUTPUT_FILENAME.
Proof.
  apply (X7_announcement_precedes_run success_world sample_command).
  vm_compute. do 6 right. now left.
Defined.

(** X8. The diagnostic lists a category exactly when it is missing: the
    line of the audio label is printed if and only if no audio file was
    selected, and likewise for the image. *)
Theorem X8_label_printed_iff_missing (w : world) :
  (In (Print ("   - " +:+ audio_label)) (trace (main w))
   <-> audio_path w = None)
  /\ (In (Print ("   - " +:+ image_label)) (trace (main w))
      <-> image_path w = None).
Proof.
  destruct (main_cases w) as [(a & i & Ha & Hi)|Hmiss].
  - rewrite (main_found w a i Ha Hi), Ha, Hi.
    unfold trace, prologue, report; cbn [fst].
    split; (split; [|discriminate]); intros Hin; exfalso;
      destruct (tool w (command w a i)) as [status|d];
      [destruct (status =? 0)%Z| |destruct (status =? 0)%Z|];
      cbn in Hin; sift Hin.
  - rewrite (main_missing w Hmiss). unfold trace, prologue; cbn [fst].
    destruct (audio_path w) as [a|], (image_path w) as [i|];
      try (destruct Hmiss; discriminate);
      split; split; intros H; try reflexivity; try discriminate H;
      cbn in H |- *; try tauto; sift H.
Qed.

Lemma X8_label_printed_iff_missing_witness :
  In (Print ("   - " +:+ audio_label)) (trace (main xyz_world))
  /\ ~ In (Print ("   - " +:+ image_label)) (trace (main xyz_world)).
Proof.
  split.
  - apply (proj2 (proj1 (X8_label_printed_iff_missing xyz_world))).
    vm_compute. reflexivity.
  - intros H.
    apply (proj1 (proj2 (X8_label_printed_iff_missing xyz_world))) in H.
    vm_compute in H. discriminate H.
Defined.

(** X9. The value of a non-zero exit status is not reported: two runs in the
    same directory whose tools fail with different non-zero statuses print
    the same lines and end the same way. *)
Theorem X9_nonzero_status_not_distinguished (w1 w2 : world) :
  script_dir w1 = script_dir w2 ->
  entries w1 = entries w2 ->
  (forall c, exists s1 s2,
     tool w1 c = Exited s1 /\ tool w2 c = Exited s2
     /\ s1 <> 0%Z /\ s2 <> 0%Z) ->
  main w1 = main w2.
Proof.
  intros Hd He Ht.
  assert (Hap : audio_path w1 = audio_path w2)
    by (unfold audio_path; now rewrite Hd, He).
  assert (Hip : image_path w1 = image_path w2)
    by (unfold image_path; now rewrite Hd, He).
  destruct (main_cases w1) as [(a & i & Ha & Hi)|Hmiss].
  - rewrite (main_found w1 a i Ha Hi).
    rewrite Hap in Ha. rewrite Hip in Hi.
    rewrite (main_found w2 a i Ha Hi).
    unfold prologue, command, output_path. rewrite Hd.
    destruct (Ht (cmd (str i) (str a)
                    (str (truediv (script_dir w2) OUTPUT_FILENAME))))
      as (s1 & s2 & -> & -> & H1 & H2).
    unfold report.
    apply Z.eqb_neq in H1, H2. now rewrite H1, H2.
  - rewrite (main_missing w1 Hmiss).
    rewrite Hap, Hip in Hmiss. rewrite (main_missing w2 Hmiss).
    unfold prologue. now rewrite Hd, Hap, Hip.
Qed.

Lemma X9_nonzero_status_not_distinguished_witness :
  main failure_world = main killed_world.
Proof.
  apply (X9_nonzero_status_not_distinguished failure_world killed_world).
  - reflexivity.
  - reflexivity.
  - intros c. exists 1%Z, (-9)%Z. repeat split; discriminate.
Defined.

(** X10. When the call of the tool fails with an exception, neither the
    success banner nor the tool-failure line is printed, and the only
    generic diagnostic printed is the one for that exception. *)
Theorem X10_fault_report_is_exclusive (w : world) (c : list string)
    (description : string) :
  In (Run c) (trace (main w)) ->
  tool w c = Failed description ->
  (forall name, ~ In (Print (success_banner name)) (trace (main w)))
  /\ ~ In (Print tool_failure_line) (trace (main w))
  /\ ~ In (Print missing_header) (trace (main w))
  /\ forall d, In (Print (unexpected_line d)) (trace (main w)) ->
               d = description.
Proof.
  intros Hrun Htool.
  apply run_in_trace in Hrun as (a & i & Ha & Hi & ->).
  rewrite (main_found w a i Ha Hi), Htool.
  unfold trace, prologue, report; cbn [fst].
  split; [|split; [|split]].
  - intros n Hin. cbn in Hin. sift Hin.
  - intros Hin. cbn in Hin. sift Hin.
  - intros Hin. cbn in Hin. sift Hin.
  - intros d Hin. cbn [app] in Hin.
    repeat (destruct Hin as [Hin|Hin]; [try discriminate Hin|]);
      try (now destruct Hin).
    injection Hin as Hin. now symmetry.
Qed.

Lemma X10_fault_report_is_exclusive_witness :
  ~ In (Print tool_failure_line) (trace (main fault_world)).
Proof.
  destruct (X10_fault_report_is_exclusive fault_world sample_command
              "[Errno 2] No such file or directory: 'ffmpeg'")
    as (_ & H & _).
  - vm_compute. do 6 right. now left.
  - reflexivity.
  - exact H.
Defined.

(** ** Prefix on POSIX *)

(** X11. On a POSIX flavour the prefix is compared letter for letter: the
    name of every selected audio file begins with [audio.] and the name of
    every selected image with [cover.], in lower case. *)
Theorem X11_posix_prefix_is_exact (w : world) (p : Path) :
  flav (script_dir w) = Posix ->
  (audio_path w = Some p -> exists rest, name p = "audio." +:+ rest)
  /\ (image_path w = Some p -> exists rest, name p = "cover." +:+ rest).
Proof.
  intros Hposix.
  split; intros Hp;
    apply find_candidate_some in Hp as (n & -> & _ & Hc);
    rewrite name_truediv; rewrite Hposix in Hc; unfold candidate in Hc;
    apply andb_prop in Hc as [Hm _]; cbn [case_insensitive] in Hm.
  - now apply (fnmatch_posix_prefix "audio." n) in Hm.
  - now apply (fnmatch_posix_prefix "cover." n) in Hm.
Qed.

Lemma X11_posix_prefix_is_exact_witness :
  exists rest, name (truediv sample_dir "audio.MP3") = "audio." +:+ rest.
Proof.
  apply (proj1 (X11_posix_prefix_is_exact mixed_world
                  (truediv sample_dir "audio.MP3") eq_refl)).
  vm_compute. reflexivity.
Defined.
